(** * rollbar.lib.transforms.shortener: the size-limiting transform

    A shallow embedding of [ShortenerTransform] and of the part of the Python
    standard library's [reprlib.Repr] it drives, followed by the properties
    of the transform. *)

From Stdlib Require Import ZArith List Bool Arith Lia.
From Stdlib Require Import Strings.String Strings.Ascii Numbers.DecimalString.
Import ListNotations.
Open Scope string_scope.
Open Scope nat_scope.
Set Warnings "-register-all".

(** ** Python values *)

(** An instance of a user-defined class, seen through what the transform
    asks of it: the outcome of [str(o)] and of [repr(o)] ([None] when the
    method raises), its class name and its [id]. *)
Record pyobject : Type := mkObj {
  obj_class : string;
  obj_id : string;          (* [id(o)] in hexadecimal digits *)
  obj_str : option string;
  obj_repr : option string
}.

(** The values the transform walks.  Dictionary keys are text.  [VMapping] is
    an instance of a class that implements [collections.abc.Mapping] without
    deriving from [dict].  Values are trees: no container is shared or holds
    itself.  Sets, arrays, deques, floating point numbers and booleans are
    left out.  Integers are unbounded; the conversion of an integer to text
    is that of an interpreter without a limit on it, and the statements on
    what a pass returns are made for integers within the limit of the
    interpreters that have one ([convertible] below). *)
Inductive value : Type :=
| VNone
| VInt (z : Z)
| VStr (s : string)
| VList (l : list value)
| VTuple (l : list value)
| VDict (items : list (string * value))
| VMapping (o : pyobject) (items : list (string * value))
| VObj (o : pyobject).

(** The types tested with [isinstance]. *)
Inductive pytype : Type :=
| TStr | TInt | TMappingABC | TDict | TList | TTuple
| TSet | TFrozenset | TArray | TDeque.

Definition isinstance (v : value) (t : pytype) : bool :=
  match v, t with
  | VStr _, TStr => true
  | VInt _, TInt => true
  | VDict _, (TDict | TMappingABC) => true
  | VMapping _ _, TMappingABC => true
  | VList _, TList => true
  | VTuple _, TTuple => true
  | _, _ => false
  end.

(** ** Outcomes *)

Inductive exn : Type :=
| TypeError | KeyError | AttributeError
| StrError  (* whatever [__str__] raised *).

(** The recursion is bounded by a [nat], the number of nested calls left,
    as the interpreter bounds it by its recursion limit: [NoFuel] is the
    [RecursionError] of a walk that needs more nested calls than it has.
    The total functions below run with as many as the value needs and are
    shown never to return it. *)
Inductive result (A : Type) : Type :=
| Ok (a : A)
| Raise (e : exn)
| NoFuel.
Arguments Ok {A} a.
Arguments Raise {A} e.
Arguments NoFuel {A}.

Definition bind {A B : Type} (m : result A) (k : A -> result B) : result B :=
  match m with
  | Ok a => k a
  | Raise e => Raise e
  | NoFuel => NoFuel
  end.

Notation "x <- m ;; k" := (bind m (fun x => k))
  (at level 61, m at next level, right associativity).

(** Runs [f] on the elements from left to right and stops at the first one
    that does not return. *)
Fixpoint mapM {A B : Type} (f : A -> result B) (l : list A) : result (list B) :=
  match l with
  | [] => Ok []
  | x :: xs => y <- f x ;; ys <- mapM f xs ;; Ok (y :: ys)
  end.

(** ** [len], [str] and [repr] of the builtins *)

(** The decimal form of an integer, [str(z)] and [repr(z)] where the
    interpreter converts it (see [convertible] for those that stop at
    [sys.int_max_str_digits] digits and raise [ValueError] beyond). *)
Definition str_of_int (z : Z) : string := NilZero.string_of_int (Z.to_int z).

(** The slices [s[:n]] and [s[start:]]; a negative [start] counts from the
    end and is clipped at the beginning.  [str_suffix j s] is
    [s[len(s)-j:]]. *)
Definition str_prefix (n : nat) (s : string) : string := substring 0 n s.
Definition slice_from (start : Z) (s : string) : string :=
  let n := Z.of_nat (length s) in
  let st := if (start <? 0)%Z then Z.max 0 (start + n) else start in
  substring (Z.to_nat st) (length s) s.
Definition str_suffix (j : nat) (s : string) : string :=
  slice_from (Z.of_nat (length s) - Z.of_nat j) s.

(** [repr] of a text value, for code points below 256: the quote is the
    apostrophe unless the text holds one and no double quote; the quote and
    the backslash are escaped, as are tab, newline and carriage return, and
    every other code point that is not printable is written [\xNN]. *)
Definition dquote : ascii := ascii_of_nat 34.
Definition squote : ascii := ascii_of_nat 39.
Definition backslash : ascii := ascii_of_nat 92.

Definition hex_digit (n : nat) : ascii :=
  nth n (list_ascii_of_string "0123456789abcdef") "0"%char.

Definition printable (n : nat) : bool :=
  ((32 <=? n) && (n <? 127)) || ((161 <=? n) && negb (n =? 173)).

Definition escape_char (quote c : ascii) : string :=
  let n := nat_of_ascii c in
  if Ascii.eqb c quote || Ascii.eqb c backslash then
    String backslash (String c "")
  else if n =? 9 then String backslash "t"
  else if n =? 10 then String backslash "n"
  else if n =? 13 then String backslash "r"
  else if printable n then String c ""
  else String backslash
         (String "x" (String (hex_digit (n / 16)) (String (hex_digit (n mod 16)) ""))).

Fixpoint has_char (c : ascii) (s : string) : bool :=
  match s with
  | "" => false
  | String d s' => Ascii.eqb c d || has_char c s'
  end.

Fixpoint escape_all (quote : ascii) (s : string) : string :=
  match s with
  | "" => ""
  | String c s' => escape_char quote c ++ escape_all quote s'
  end.

Definition repr_of_str (s : string) : string :=
  let quote :=
    if has_char squote s && negb (has_char dquote s) then dquote else squote in
  String quote (escape_all quote s ++ String quote "").

(** ** [reprlib.Repr] *)

(** The size attributes of a [reprlib.Repr] instance, with the attributes
    that [setattr] added under other names. *)
Record Repr : Type := mkRepr {
  maxlevel : nat;
  maxtuple : nat;
  maxlist : nat;
  maxarray : nat;
  maxdict : nat;
  maxset : nat;
  maxfrozenset : nat;
  maxdeque : nat;
  maxstring : nat;
  maxlong : nat;
  maxother : nat;
  extra_attrs : list (string * nat)
}.

(** [reprlib.Repr()]: the defaults of the standard library. *)
Definition Repr_default : Repr :=
  {| maxlevel := 6; maxtuple := 6; maxlist := 6; maxarray := 5; maxdict := 4;
     maxset := 6; maxfrozenset := 6; maxdeque := 6; maxstring := 30;
     maxlong := 40; maxother := 30; extra_attrs := [] |}.

Definition fillvalue : string := "...".

Fixpoint assoc {A : Type} (k : string) (l : list (string * A)) : option A :=
  match l with
  | [] => None
  | (k', a) :: l' => if String.eqb k k' then Some a else assoc k l'
  end.

Definition getattr (r : Repr) (name : string) : result nat :=
  if String.eqb name "maxlevel" then Ok (maxlevel r)
  else if String.eqb name "maxtuple" then Ok (maxtuple r)
  else if String.eqb name "maxlist" then Ok (maxlist r)
  else if String.eqb name "maxarray" then Ok (maxarray r)
  else if String.eqb name "maxdict" then Ok (maxdict r)
  else if String.eqb name "maxset" then Ok (maxset r)
  else if String.eqb name "maxfrozenset" then Ok (maxfrozenset r)
  else if String.eqb name "maxdeque" then Ok (maxdeque r)
  else if String.eqb name "maxstring" then Ok (maxstring r)
  else if String.eqb name "maxlong" then Ok (maxlong r)
  else if String.eqb name "maxother" then Ok (maxother r)
  else match assoc name (extra_attrs r) with
       | Some n => Ok n
       | None => Raise AttributeError
       end.





(** The cut shared by [repr_str], [repr_int] and [repr_instance]:
    [s[:i] + fillvalue + s[len(s)-j:]] with [i = max(0, (m-3)//2)] and
    [j = max(0, m-3-i)]. *)
Definition cut_i (m : nat) : nat := (m - 3) / 2.
Definition cut_j (m : nat) : nat := m - 3 - cut_i m.
Definition cut (m : nat) (s : string) : string :=
  str_prefix (cut_i m) s ++ fillvalue ++ str_suffix (cut_j m) s.

Definition repr_str (r : Repr) (x : string) : string :=
  let s := repr_of_str (str_prefix (maxstring r) x) in
  if maxstring r <? length s then
    let i := cut_i (maxstring r) in
    let j := cut_j (maxstring r) in
    cut (maxstring r) (repr_of_str (str_prefix i x ++ str_suffix j x))
  else s.

(** [repr_int], for an integer that [builtins.repr] converts. *)
Definition repr_int (r : Repr) (x : Z) : string :=
  let s := str_of_int x in
  if maxlong r <? length s then cut (maxlong r) s else s.

(** ['<%s instance at %#x>' % (x.__class__.__name__, id(x))]. *)
Definition instance_descriptor (cls id : string) : string :=
  "<" ++ cls ++ " instance at 0x" ++ id ++ ">".

(** [repr_instance], given the outcome of [builtins.repr(x)]. *)
Definition repr_instance (r : Repr) (cls id : string) (rep : option string) : string :=
  match rep with
  | None => instance_descriptor cls id
  | Some s => if maxother r <? length s then cut (maxother r) s else s
  end.

Fixpoint join (sep : string) (pieces : list string) : string :=
  match pieces with
  | [] => ""
  | [p] => p
  | p :: ps => p ++ sep ++ join sep ps
  end.

(** [_repr_iterable], given the pieces [repr1(elem, level - 1)] of the first
    [maxiter] elements; [n] is [len(x)]. *)
Definition _repr_iterable (left right : string) (maxiter : nat) (trail : string)
    (level n : nat) (pieces : list string) : string :=
  if (level =? 0) && (0 <? n) then left ++ fillvalue ++ right
  else
    let pieces := if maxiter <? n then (pieces ++ [fillvalue])%list else pieces in
    let s := join ", " pieces in
    let right := if (n =? 1) && negb (String.eqb trail "") then trail ++ right
                 else right in
    left ++ s ++ right.

(** [sorted] on the keys of a dictionary, carried with their entries. *)
Fixpoint insert_sorted {A : Type} (e : string * A) (l : list (string * A))
    : list (string * A) :=
  match l with
  | [] => [e]
  | e' :: l' => if String.leb (fst e) (fst e') then e :: l
                else e' :: insert_sorted e l'
  end.

Fixpoint sorted_items {A : Type} (l : list (string * A)) : list (string * A) :=
  match l with
  | [] => []
  | e :: l' => insert_sorted e (sorted_items l')
  end.

(** [repr_dict], given each entry's [repr1(x[key], level - 1)]. *)
Definition repr_dict_of (r : Repr) (level : nat) (reprs : list (string * string))
    : string :=
  let n := List.length reprs in
  if n =? 0 then "{}"
  else if level =? 0 then "{" ++ fillvalue ++ "}"
  else
    let pieces :=
      map (fun kv => repr_str r (fst kv) ++ ": " ++ snd kv)
          (firstn (maxdict r) (sorted_items reprs)) in
    let pieces := if maxdict r <? n then (pieces ++ [fillvalue])%list else pieces in
    "{" ++ join ", " pieces ++ "}".

(** [Repr.repr1]: the dispatch on the type's name.  Classes of [VObj] and
    [VMapping] are taken to have names for which [Repr] has no [repr_]
    method, so they reach [repr_instance], as [None] does. *)
Fixpoint repr1 (r : Repr) (x : value) (level : nat) {struct x} : string :=
  match x with
  | VNone => repr_instance r "NoneType" "" (Some "None")
  | VInt z => repr_int r z
  | VStr s => repr_str r s
  | VList l =>
      _repr_iterable "[" "]" (maxlist r) "" level (List.length l)
        ((fix islice (n : nat) (l : list value) {struct l} : list string :=
            match n, l with
            | S n', e :: l' => repr1 r e (level - 1) :: islice n' l'
            | _, _ => []
            end) (maxlist r) l)
  | VTuple l =>
      _repr_iterable "(" ")" (maxtuple r) "," level (List.length l)
        ((fix islice (n : nat) (l : list value) {struct l} : list string :=
            match n, l with
            | S n', e :: l' => repr1 r e (level - 1) :: islice n' l'
            | _, _ => []
            end) (maxtuple r) l)
  | VDict items =>
      repr_dict_of r level
        ((fix each (l : list (string * value)) : list (string * string) :=
            match l with
            | [] => []
            | (k, v) :: l' => (k, repr1 r v (level - 1)) :: each l'
            end) items)
  | VMapping o _ => repr_instance r (obj_class o) (obj_id o) (obj_repr o)
  | VObj o => repr_instance r (obj_class o) (obj_id o) (obj_repr o)
  end.

(** [Repr.repr]. *)
Definition Repr_repr (r : Repr) (x : value) : string := repr1 r x (maxlevel r).

(** ** [len], [str] and [repr] on values *)

Definition len (v : value) : result nat :=
  match v with
  | VStr s => Ok (length s)
  | VList l | VTuple l => Ok (List.length l)
  | VDict items | VMapping _ items => Ok (List.length items)
  | VNone | VInt _ | VObj _ => Raise TypeError
  end.

Definition run_method (m : option string) : result string :=
  match m with
  | Some s => Ok s
  | None => Raise StrError
  end.

(** [builtins.repr], integers being converted whatever their length. *)
Fixpoint py_repr (v : value) : result string :=
  match v with
  | VNone => Ok "None"
  | VInt z => Ok (str_of_int z)
  | VStr s => Ok (repr_of_str s)
  | VList l =>
      ps <- (fix each (l : list value) : result (list string) :=
               match l with
               | [] => Ok []
               | e :: l' => p <- py_repr e ;; ps <- each l' ;; Ok (p :: ps)
               end) l ;;
      Ok ("[" ++ join ", " ps ++ "]")
  | VTuple l =>
      ps <- (fix each (l : list value) : result (list string) :=
               match l with
               | [] => Ok []
               | e :: l' => p <- py_repr e ;; ps <- each l' ;; Ok (p :: ps)
               end) l ;;
      Ok ("(" ++ join ", " ps ++ (if List.length l =? 1 then ",)" else ")"))
  | VDict items =>
      ps <- (fix each (l : list (string * value)) : result (list string) :=
               match l with
               | [] => Ok []
               | (k, e) :: l' =>
                   p <- py_repr e ;; ps <- each l' ;;
                   Ok ((repr_of_str k ++ ": " ++ p) :: ps)
               end) items ;;
      Ok ("{" ++ join ", " ps ++ "}")
  | VMapping o _ | VObj o => run_method (obj_repr o)
  end.

(** [str(v)]: the text itself, the object's own [__str__], and [repr]
    for the rest, integers being converted whatever their length. *)
Definition py_str (v : value) : result string :=
  match v with
  | VStr s => Ok s
  | VMapping o _ | VObj o => run_method (obj_str o)
  | _ => py_repr v
  end.

(** [obj.keys()] and [obj[k]] of a mapping. *)
Definition mapping_items (v : value) : result (list (string * value)) :=
  match v with
  | VDict items | VMapping _ items => Ok items
  | _ => Raise AttributeError
  end.

Definition getitem (items : list (string * value)) (k : string) : result value :=
  match assoc k items with
  | Some v => Ok v
  | None => Raise KeyError
  end.

(** ** The names of [rollbar.lib] and the type table *)

Definition isinstance_any (v : value) (ts : list pytype) : bool :=
  existsb (isinstance v) ts.

(** Modelled from the spec: [string_types], [integer_types] and
    [number_types] of [rollbar.lib], the text type and the integer type
    ("text-like", "integer/numeric-like"); floating point numbers are not
    among the modelled values. *)
Definition string_types : list pytype := [TStr].
Definition integer_types : list pytype := [TInt].
Definition number_types : list pytype := [TInt].

Definition _type_name_mapping : list (string * option (list pytype)) :=
  [ ("string", Some string_types);
    ("long", Some integer_types);
    ("mapping", Some [TMappingABC]);
    ("list", Some [TList]);
    ("tuple", Some [TTuple]);
    ("set", Some [TSet]);
    ("frozenset", Some [TFrozenset]);
    ("array", Some [TArray]);
    ("deque", Some [TDeque]);
    ("other", None) ].

(** The key under which a value is processed, and Python's truth value of
    it. *)
Inductive pykey : Type :=
| KNone
| KStr (s : string)
| KTuple (path : list string).

Definition truthy (k : pykey) : bool :=
  match k with
  | KNone => false
  | KStr s => negb (String.eqb s "")
  | KTuple p => match p with [] => false | _ => true end
  end.

Record ShortenerTransform : Type := mkShortener {
  safe_repr : bool;
  keys : option (list pykey);
  _repr : Repr
}.



(** Nesting height of a value, the measure of the recursion below. *)
Fixpoint height (v : value) : nat :=
  match v with
  | VList l | VTuple l =>
      S ((fix hs (l : list value) : nat :=
            match l with
            | [] => 0
            | e :: l' => Nat.max (height e) (hs l')
            end) l)
  | VDict items | VMapping _ items =>
      S ((fix hs (l : list (string * value)) : nat :=
            match l with
            | [] => 0
            | (_, e) :: l' => Nat.max (height e) (hs l')
            end) items)
  | VNone | VInt _ | VStr _ | VObj _ => 0
  end.

(** A [key_in] for the examples: a key is in the set when it is equal to one
    of its members, and iterating over [None] raises [TypeError]. *)
Definition pykey_eqb (k k' : pykey) : bool :=
  match k, k' with
  | KNone, KNone => true
  | KStr s, KStr s' => String.eqb s s'
  | KTuple p, KTuple p' => if list_eq_dec string_dec p p' then true else false
  | _, _ => false
  end.

Definition key_in_exact (key : pykey) (canonicals : option (list pykey))
    : result bool :=
  match canonicals with
  | None => Raise TypeError
  | Some cs => Ok (existsb (pykey_eqb key) cs)
  end.

(** ** The transform *)

Section Transform.

(** Whether [sequence_types] holds the [Mapping] class. *)
Variable mapping_is_sequence : bool.

(** [rollbar.lib.key_in]: whether the key matches the eligibility set.  It
    is a call into code that may raise, as it does on a set left at
    [None]. *)
Variable key_in : pykey -> option (list pykey) -> result bool.

(** Modelled from the spec: [sequence_types] of [rollbar.lib], the
    "ordered-sequence types (excluding text)": the container types of the
    type table (list, tuple, set, frozenset, array, deque), with or without
    the [Mapping] class. *)
Definition sequence_types : list pytype :=
  ((if mapping_is_sequence then [TMappingABC] else [])
   ++ [TList; TTuple; TSet; TFrozenset; TArray; TDeque])%list.

Variable self : ShortenerTransform.

Fixpoint _get_max_size_from (table : list (string * option (list pytype)))
    (obj : value) : result nat :=
  match table with
  | [] => Ok (maxother (_repr self))
  | (name, _type) :: table' =>
      let name := if String.eqb name "mapping" then "dict" else name in
      match _type with
      | Some ts =>
          if isinstance_any obj ts then getattr (_repr self) ("max" ++ name)
          else _get_max_size_from table' obj
      | None => _get_max_size_from table' obj
      end
  end.

Definition _get_max_size (obj : value) : result nat :=
  _get_max_size_from _type_name_mapping obj.

Definition _shorten_sequence (obj : value) (max_keys : nat) : result value :=
  _len <- len obj ;;
  if _len <=? max_keys then Ok obj
  else Ok (VStr (Repr_repr (_repr self) obj)).

Definition _shorten_mapping (obj : value) (max_keys : nat) : result value :=
  _len <- len obj ;;
  if _len <=? max_keys then Ok obj
  else
    items <- mapping_items obj ;;
    new <- mapM (fun k => v <- getitem items k ;; Ok (k, v))
                (firstn max_keys (map fst items)) ;;
    Ok (VDict new).

Definition _shorten_basic (obj : value) (max_len : nat) : result value :=
  val <- py_str obj ;;
  if length val <=? max_len then Ok obj
  else Ok (VStr (Repr_repr (_repr self) obj)).

Definition _shorten_other (obj : value) : result value :=
  match obj with
  | VNone => Ok VNone
  | _ =>
      obj <- (if safe_repr self then s <- py_str obj ;; Ok (VStr s) else Ok obj) ;;
      Ok (VStr (Repr_repr (_repr self) obj))
  end.

(** [traverse_obj] and [_shorten].  The loops of [traverse_obj] store each
    entry's new value and then walk it in place; the value left in the slot
    after that walk is what this model puts there.  Storing into a tuple
    raises [TypeError] once the right-hand side is computed, and indexing a
    mapping with [0] raises [KeyError], its keys being text. *)
Fixpoint traverse_obj_fuel (fuel : nat) (d : value) {struct fuel} : result value :=
  match fuel with
  | 0 => NoFuel
  | S fuel' =>
      let entry (v : value) : result value :=
        if isinstance v TDict then
          max_size <- _get_max_size v ;;
          v' <- _shorten_mapping v max_size ;;
          traverse_obj_fuel fuel' v'
        else if isinstance_any v sequence_types then
          max_size <- _get_max_size v ;;
          v' <- _shorten_sequence v max_size ;;
          traverse_obj_fuel fuel' v'
        else _shorten_fuel fuel' v in
      let stored (v : value) : result value :=
        if isinstance v TDict then
          max_size <- _get_max_size v ;; _shorten_mapping v max_size
        else if isinstance_any v sequence_types then
          max_size <- _get_max_size v ;; _shorten_sequence v max_size
        else _shorten_fuel fuel' v in
      match d with
      | VDict items =>
          items' <- mapM (fun kv => v' <- entry (snd kv) ;; Ok (fst kv, v')) items ;;
          Ok (VDict items')
      | VList l => l' <- mapM entry l ;; Ok (VList l')
      | VTuple [] => Ok d
      | VTuple (v :: _) => _ <- stored v ;; Raise TypeError
      | VMapping _ [] => Ok d
      | VMapping _ (_ :: _) =>
          if mapping_is_sequence then Raise KeyError else Ok d
      | VNone | VInt _ | VStr _ | VObj _ => Ok d
      end
  end

with _shorten_fuel (fuel : nat) (val : value) {struct fuel} : result value :=
  match fuel with
  | 0 => NoFuel
  | S fuel' =>
      max_size <- _get_max_size val ;;
      if isinstance val TDict then
        val <- _shorten_mapping val max_size ;;
        traverse_obj_fuel fuel' val
      else if isinstance_any val string_types then
        _shorten_sequence val max_size
      else if isinstance_any val sequence_types then
        val <- _shorten_sequence val max_size ;;
        traverse_obj_fuel fuel' val
      else if isinstance_any val number_types then
        _shorten_basic val (maxlong (_repr self))
      else _shorten_other val
  end.

(** The two walks, run with the recursion depth the value needs. *)
Definition traverse_obj (d : value) : result value :=
  traverse_obj_fuel (height d + 1) d.

Definition _shorten (val : value) : result value :=
  _shorten_fuel (height val + 2) val.

Definition _should_shorten (val : value) (key : pykey) : result bool :=
  if negb (truthy key) then Ok false
  else key_in key (keys self).

(** Modelled from the spec: [Transform.default] of [rollbar.lib.transform],
    the base class's entry point, which hands the value back as it came
    ("the value is returned completely unmodified"). *)
Definition Transform_default (o : value) (key : pykey) : result value := Ok o.

Definition default (o : value) (key : pykey) : result value :=
  eligible <- _should_shorten o key ;;
  if eligible then _shorten o
  else Transform_default o key.

End Transform.

(** ** Predicates and bounds used in the statements *)


(** The names [Repr] keeps a size under. *)
Definition size_names : list string :=
  ["maxlevel"; "maxtuple"; "maxlist"; "maxarray"; "maxdict"; "maxset";
   "maxfrozenset"; "maxdeque"; "maxstring"; "maxlong"; "maxother"].

Definition known_size_name (name : string) : bool :=
  existsb (String.eqb name) size_names.

(** Names that neither [Repr] nor the instance machinery reads: no size
    name, nothing that starts like a method of [Repr] or with an underscore,
    and neither [fillvalue] nor [indent]. *)
Definition inert_name (name : string) : bool :=
  negb (known_size_name name) && negb (String.prefix "repr" name)
  && negb (String.prefix "_" name)
  && negb (String.eqb name "fillvalue") && negb (String.eqb name "indent").

(** No attribute that [Repr] reads has been bound besides the sizes. *)
Definition unshadowed (r : Repr) : bool :=
  forallb (fun ns => inert_name (fst ns)) (extra_attrs r).








(** The body of the loops of [traverse_obj] for one entry, over the two
    recursive calls. *)
Definition entry_with (mapping_is_sequence : bool) (self : ShortenerTransform)
    (trav shor : value -> result value) (v : value) : result value :=
  match v with
  | VDict _ => v' <- _shorten_mapping v (maxdict (_repr self)) ;; trav v'
  | VList _ => v' <- _shorten_sequence self v (maxlist (_repr self)) ;; trav v'
  | VTuple _ => v' <- _shorten_sequence self v (maxtuple (_repr self)) ;; trav v'
  | VMapping _ _ =>
      if mapping_is_sequence
      then v' <- _shorten_sequence self v (maxdict (_repr self)) ;; trav v'
      else shor v
  | VNone | VInt _ | VStr _ | VObj _ => shor v
  end.

Definition stored_with (mapping_is_sequence : bool) (self : ShortenerTransform)
    (shor : value -> result value) (v : value) : result value :=
  match v with
  | VDict _ => _shorten_mapping v (maxdict (_repr self))
  | VList _ => _shorten_sequence self v (maxlist (_repr self))
  | VTuple _ => _shorten_sequence self v (maxtuple (_repr self))
  | VMapping _ _ =>
      if mapping_is_sequence
      then _shorten_sequence self v (maxdict (_repr self))
      else shor v
  | VNone | VInt _ | VStr _ | VObj _ => shor v
  end.




(** The number of digits up to which the interpreter converts an integer to
    text ([sys.int_max_str_digits], 4300 unless changed); where the limit
    is in force, [str] and [repr] raise [ValueError] on longer integers.
    [str_of_int] is the conversion within the limit. *)
Definition int_max_str_digits : nat := 4300.

Definition convertible (z : Z) : bool :=
  length (str_of_int (Z.abs z)) <=? int_max_str_digits.










(** The values [_shorten] settles without a walk. *)
Definition walk_free (mapping_is_sequence : bool) (v : value) : Prop :=
  match v with
  | VNone | VInt _ | VStr _ | VObj _ => True
  | VMapping _ _ => mapping_is_sequence = false
  | VList _ | VTuple _ | VDict _ => False
  end.

(** The walk gives one result on values of height at most [n], whatever
    fuel above [n] it is run with, and does not run out. *)
Definition trav_stable (mapping_is_sequence : bool) (self : ShortenerTransform)
    (n : nat) : Prop :=
  forall v f1 f2, height v <= n -> n + 1 <= f1 -> n + 1 <= f2 ->
    traverse_obj_fuel mapping_is_sequence self f1 v
    = traverse_obj_fuel mapping_is_sequence self f2 v /\
    traverse_obj_fuel mapping_is_sequence self f1 v <> NoFuel.

(** * Properties *)

(** Induction on values that reaches the elements of the containers. *)
Section ValueInduction.

Variable P : value -> Prop.
Hypothesis HNone : P VNone.
Hypothesis HInt : forall z, P (VInt z).
Hypothesis HStr : forall s, P (VStr s).
Hypothesis HList : forall l, Forall P l -> P (VList l).
Hypothesis HTuple : forall l, Forall P l -> P (VTuple l).
Hypothesis HDict : forall items,
  Forall (fun kv => P (snd kv)) items -> P (VDict items).
Hypothesis HMapping : forall o items,
  Forall (fun kv => P (snd kv)) items -> P (VMapping o items).
Hypothesis HObj : forall o, P (VObj o).


End ValueInduction.

(** ** Classification *)

Lemma _get_max_size_cases (self : ShortenerTransform) (v : value) :
  _get_max_size self v =
  Ok (match v with
      | VStr _ => maxstring (_repr self)
      | VInt _ => maxlong (_repr self)
      | VDict _ | VMapping _ _ => maxdict (_repr self)
      | VList _ => maxlist (_repr self)
      | VTuple _ => maxtuple (_repr self)
      | VNone | VObj _ => maxother (_repr self)
      end).
Proof. destruct v; reflexivity. Qed.

(** ** The strategies *)

Lemma assoc_skip {A : Type} (k : string) (pre rest : list (string * A)) :
  ~ In k (map fst pre) -> assoc k (pre ++ rest)%list = assoc k rest.
Proof.
  induction pre as [|[k' a] pre IH]; simpl; intros Hn; [reflexivity|].
  destruct (String.eqb_spec k k') as [->|_].
  - exfalso. apply Hn. now left.
  - apply IH. intros Hin. apply Hn. now right.
Qed.

Lemma islice_getitem (n : nat) (pre rest : list (string * value)) :
  NoDup (map fst (pre ++ rest)%list) ->
  mapM (fun k => v <- getitem (pre ++ rest)%list k ;; Ok (k, v))
       (firstn n (map fst rest))
  = Ok (firstn n rest).
Proof.
  revert n pre.
  induction rest as [|[k v] rest IH]; intros n pre Hnd.
  - now destruct n.
  - destruct n as [|n]; [reflexivity|]. simpl.
    unfold getitem at 1.
    rewrite assoc_skip.
    + simpl. rewrite String.eqb_refl. simpl.
      specialize (IH n (pre ++ [(k, v)])%list).
      rewrite <- app_assoc in IH. simpl in IH.
      rewrite IH by exact Hnd. reflexivity.
    + rewrite map_app in Hnd. simpl in Hnd.
      apply NoDup_remove_2 in Hnd.
      intros Hin. apply Hnd. apply in_or_app. now left.
Qed.

(** C4.  On a mapping (a dictionary or another mapping object, its keys
    pairwise distinct) the mapping strategy returns the mapping itself when
    it has at most [max_keys] keys, and otherwise a new dictionary made of
    its first [max_keys] entries in iteration order, each key bound to the
    value it had. *)
Theorem shorten_mapping_first_keys (obj : value) (items : list (string * value))
    (max_keys : nat) :
  mapping_items obj = Ok items ->
  NoDup (map fst items) ->
  (List.length items <= max_keys -> _shorten_mapping obj max_keys = Ok obj) /\
  (max_keys < List.length items ->
     _shorten_mapping obj max_keys = Ok (VDict (firstn max_keys items)) /\
     List.length (firstn max_keys items) = max_keys /\
     forall k v, In (k, v) (firstn max_keys items) -> assoc k items = Some v).
Proof.
  intros Hitems Hnd.
  assert (Hlen_obj : len obj = Ok (List.length items))
    by (destruct obj; simpl in *; congruence).
  unfold _shorten_mapping. rewrite Hlen_obj, Hitems. simpl. split; intros Hlen.
  - apply Nat.leb_le in Hlen. now rewrite Hlen.
  - assert (Hgt : (List.length items <=? max_keys) = false)
      by (apply Nat.leb_gt; exact Hlen).
    rewrite Hgt.
    pose proof (islice_getitem max_keys [] items Hnd) as Hslice.
    simpl in Hslice. rewrite Hslice. simpl.
    split; [reflexivity|]. split.
    + apply firstn_length_le. lia.
    + intros k v Hin.
      rewrite <- (firstn_skipn max_keys items) in Hnd |- * .
      remember (firstn max_keys items) as pre eqn:Epre.
      remember (skipn max_keys items) as post eqn:Epost.
      clear Epre Epost Hlen Hgt Hslice Hitems Hlen_obj.
      induction pre as [|[k' v'] pre IH]; [destruct Hin|].
      simpl in *. inversion Hnd as [|? ? Hnotin Hnd']; subst.
      destruct Hin as [Heq|Hin].
      * inversion Heq; subst. now rewrite String.eqb_refl.
      * destruct (String.eqb_spec k k') as [->|_].
        -- exfalso. apply Hnotin.
           apply (in_map fst) in Hin. simpl in Hin.
           rewrite map_app. apply in_or_app. now left.
        -- now apply IH.
Qed.

Lemma shorten_mapping_first_keys_witness :
  _shorten_mapping
    (VDict [("a", VInt 1); ("b", VInt 2); ("c", VInt 3); ("d", VInt 4); ("e", VInt 5)]) 3
  = Ok (VDict [("a", VInt 1); ("b", VInt 2); ("c", VInt 3)]).
Proof.
  refine (proj1 (proj2 (shorten_mapping_first_keys
    (VDict [("a", VInt 1); ("b", VInt 2); ("c", VInt 3); ("d", VInt 4); ("e", VInt 5)])
    [("a", VInt 1); ("b", VInt 2); ("c", VInt 3); ("d", VInt 4); ("e", VInt 5)] 3
    eq_refl _) _)).
  - repeat constructor; simpl; intuition discriminate.
  - simpl. lia.
Defined.

(** C9.  The other strategy hands [None] back as it is, whatever the
    [safe_repr] flag and the limits; so does the dispatcher, which sends
    [None] to the other strategy. *)
Theorem shorten_other_preserves_none (mapping_is_sequence : bool)
    (self : ShortenerTransform) :
  _shorten_other self VNone = Ok VNone /\
  _shorten mapping_is_sequence self VNone = Ok VNone.
Proof.
  split; [reflexivity|].
  destruct mapping_is_sequence; reflexivity.
Qed.

(** ** The entry point *)

(** C6.  Called with no key, or with a key that [key_in] does not find in
    the eligibility set, the entry point returns the value it was given,
    whatever its size; no walk is made. *)
Theorem default_ineligible_unchanged (mapping_is_sequence : bool)
    (key_in : pykey -> option (list pykey) -> result bool)
    (self : ShortenerTransform) (o : value) (key : pykey) :
  key = KNone \/ key_in key (keys self) = Ok false ->
  _should_shorten key_in self o key = Ok false /\
  default mapping_is_sequence key_in self o key = Ok o.
Proof.
  intros Hkey.
  assert (Hno : _should_shorten key_in self o key = Ok false).
  { unfold _should_shorten. destruct Hkey as [-> | Hout]; [reflexivity|].
    destruct (truthy key); [exact Hout | reflexivity]. }
  split; [exact Hno|].
  unfold default. now rewrite Hno.
Qed.

Lemma default_ineligible_unchanged_witness :
  default true key_in_exact (mkShortener true (Some [KStr "frames"]) Repr_default)
          (VList (map VInt [0; 1; 2; 3; 4; 5; 6; 7; 8; 9]%Z)) (KStr "body")
  = Ok (VList (map VInt [0; 1; 2; 3; 4; 5; 6; 7; 8; 9]%Z)).
Proof.
  apply (default_ineligible_unchanged true key_in_exact).
  right. reflexivity.
Defined.

(** C10.  A key that Python takes for false (no key, the empty text, the
    empty tuple) makes the entry point return the value unchanged, even
    when [key_in] would find the key in the eligibility set: the set is
    not consulted, and [key_in] is not called. *)
Theorem default_falsy_key_unchanged (mapping_is_sequence : bool)
    (key_in : pykey -> option (list pykey) -> result bool)
    (self : ShortenerTransform) (o : value) (key : pykey) :
  truthy key = false ->
  _should_shorten key_in self o key = Ok false /\
  default mapping_is_sequence key_in self o key = Ok o.
Proof.
  intros Hfalsy.
  unfold default, _should_shorten. rewrite Hfalsy. simpl. now split.
Qed.

Lemma default_falsy_key_unchanged_witness :
  key_in_exact (KStr "") (Some [KStr ""]) = Ok true /\
  default true key_in_exact (mkShortener true (Some [KStr ""]) Repr_default)
          (VList (map VInt [0; 1; 2; 3; 4; 5; 6; 7; 8; 9]%Z)) (KStr "")
  = Ok (VList (map VInt [0; 1; 2; 3; 4; 5; 6; 7; 8; 9]%Z)).
Proof.
  split; [reflexivity|].
  apply (default_falsy_key_unchanged true key_in_exact).
  reflexivity.
Defined.

(** The same value under an eligible key is summarised. *)
Example default_eligible_key_shortens :
  default true key_in_exact (mkShortener true (Some [KStr "body"]) Repr_default)
          (VList (map VInt [0; 1; 2; 3; 4; 5; 6; 7; 8; 9]%Z)) (KStr "body")
  = Ok (VStr "[0, 1, 2, 3, 4, 5, ...]").
Proof. reflexivity. Qed.

(** ** Construction *)














(** ** Lengths of summaries *)

Lemma length_append (a b : string) : length (a ++ b) = length a + length b.
Proof. induction a as [|c a IH]; simpl; [reflexivity | now rewrite IH]. Qed.






































(** ** One step of the two walks *)

Lemma mapM_ext {A B : Type} (f g : A -> result B) (l : list A) :
  Forall (fun x => f x = g x) l -> mapM f l = mapM g l.
Proof.
  induction 1 as [|x l Hx _ IH]; simpl; [reflexivity|].
  now rewrite Hx, IH.
Qed.

Section Steps.

Variable b : bool.
Variable self : ShortenerTransform.

Let trav := traverse_obj_fuel b self.
Let shor := _shorten_fuel b self.

Lemma traverse_obj_fuel_S (fuel : nat) (d : value) :
  trav (S fuel) d =
  match d with
  | VDict items =>
      items' <- mapM (fun kv => v' <- entry_with b self (trav fuel) (shor fuel) (snd kv) ;;
                                Ok (fst kv, v')) items ;;
      Ok (VDict items')
  | VList l => l' <- mapM (entry_with b self (trav fuel) (shor fuel)) l ;; Ok (VList l')
  | VTuple [] => Ok d
  | VTuple (v :: _) => _ <- stored_with b self (shor fuel) v ;; Raise TypeError
  | VMapping _ [] => Ok d
  | VMapping _ (_ :: _) => if b then Raise KeyError else Ok d
  | VNone | VInt _ | VStr _ | VObj _ => Ok d
  end.
Proof.
  subst trav shor.
  destruct d as [| z | s | l | l | items | o items | o]; try reflexivity.
  - cbn [traverse_obj_fuel]. f_equal. apply mapM_ext, Forall_forall.
    intros v _. destruct v, b; reflexivity.
  - destruct l as [|v l]; [reflexivity|].
    cbn [traverse_obj_fuel]. destruct v, b; reflexivity.
  - cbn [traverse_obj_fuel]. f_equal. apply mapM_ext, Forall_forall.
    intros [k v] _. destruct v, b; reflexivity.
Qed.

Lemma _shorten_fuel_S (fuel : nat) (v : value) :
  shor (S fuel) v =
  match v with
  | VDict _ => v' <- _shorten_mapping v (maxdict (_repr self)) ;; trav fuel v'
  | VStr _ => _shorten_sequence self v (maxstring (_repr self))
  | VList _ => v' <- _shorten_sequence self v (maxlist (_repr self)) ;; trav fuel v'
  | VTuple _ => v' <- _shorten_sequence self v (maxtuple (_repr self)) ;; trav fuel v'
  | VMapping _ _ =>
      if b then v' <- _shorten_sequence self v (maxdict (_repr self)) ;; trav fuel v'
      else _shorten_other self v
  | VInt _ => _shorten_basic self v (maxlong (_repr self))
  | VNone | VObj _ => _shorten_other self v
  end.
Proof. subst trav shor. destruct v, b; reflexivity. Qed.

End Steps.

(** ** What the strategies return *)

Lemma assoc_in {A : Type} (k : string) (items : list (string * A)) :
  In k (map fst items) -> exists v, assoc k items = Some v /\ In (k, v) items.
Proof.
  induction items as [|[k' v'] items IH]; simpl; [intros []|].
  intros Hin. destruct (String.eqb_spec k k') as [->|Hne].
  - exists v'. split; [reflexivity | now left].
  - destruct Hin as [Heq|Hin]; [congruence|].
    destruct (IH Hin) as (v & Hv & Hitem). exists v. split; [exact Hv | now right].
Qed.

Lemma getitem_all (items : list (string * value)) (ks : list string) :
  incl ks (map fst items) ->
  exists new, mapM (fun k => v <- getitem items k ;; Ok (k, v)) ks = Ok new /\
              List.length new = List.length ks /\ incl new items.
Proof.
  induction ks as [|k ks IH]; intros Hincl.
  - exists []. repeat split. intros x [].
  - destruct (assoc_in k items (Hincl k (or_introl eq_refl))) as (v & Hv & Hitem).
    destruct IH as (new & Hnew & Hlen & Hsub).
    { intros x Hx. apply Hincl. now right. }
    exists ((k, v) :: new). simpl. unfold getitem at 1. rewrite Hv. simpl.
    rewrite Hnew. simpl. split; [reflexivity|]. split; [now rewrite Hlen|].
    intros x [<-|Hx]; [exact Hitem | now apply Hsub].
Qed.

Lemma firstn_incl_self {A : Type} (n : nat) (l : list A) : incl (firstn n l) l.
Proof.
  revert n. induction l as [|x l IH]; intros [|n]; simpl; intros y Hy;
    try contradiction.
  destruct Hy as [<-|Hy]; [now left | right; now apply (IH n)].
Qed.

(** The mapping strategy on a dictionary never raises: the result is the
    dictionary itself, or a dictionary of at most [max_keys] of its
    entries. *)
Lemma shorten_mapping_dict (items : list (string * value)) (max_keys : nat) :
  exists new, _shorten_mapping (VDict items) max_keys = Ok (VDict new) /\
    incl new items /\
    ((new = items /\ List.length items <= max_keys) \/
     (List.length new <= max_keys /\ max_keys < List.length items)).
Proof.
  unfold _shorten_mapping. simpl.
  destruct (Nat.leb_spec (List.length items) max_keys) as [Hle|Hgt].
  - exists items. split; [reflexivity|]. split; [apply incl_refl | now left].
  - destruct (getitem_all items (firstn max_keys (map fst items))
                (firstn_incl_self _ _)) as (new & Hnew & Hlen & Hsub).
    exists new. rewrite Hnew. simpl. split; [reflexivity|]. split; [exact Hsub|].
    right. split; [|exact Hgt].
    rewrite Hlen. apply firstn_le_length.
Qed.

(** The sequence strategy on a value that has a length. *)
Lemma shorten_sequence_cases (self : ShortenerTransform) (v : value)
    (max_keys n : nat) :
  len v = Ok n ->
  (_shorten_sequence self v max_keys = Ok v /\ n <= max_keys) \/
  (_shorten_sequence self v max_keys = Ok (VStr (Repr_repr (_repr self) v)) /\
   max_keys < n).
Proof.
  intros Hlen. unfold _shorten_sequence. rewrite Hlen. simpl.
  destruct (Nat.leb_spec n max_keys); [left | right]; now split.
Qed.

Lemma getitem_keys (items : list (string * value)) (ks : list string)
    (new : list (string * value)) :
  mapM (fun k => v <- getitem items k ;; Ok (k, v)) ks = Ok new ->
  map fst new = ks.
Proof.
  revert new. induction ks as [|k ks IH]; simpl; intros new H.
  - now injection H as <-.
  - destruct (getitem items k) as [v| |]; simpl in H; try discriminate.
    destruct (mapM _ ks) as [rest| |]; simpl in H; try discriminate.
    injection H as <-. simpl. f_equal. now apply IH.
Qed.

Lemma mapM_values_keys (f : value -> result value)
    (items items' : list (string * value)) :
  mapM (fun kv => v' <- f (snd kv) ;; Ok (fst kv, v')) items = Ok items' ->
  map fst items' = map fst items.
Proof.
  revert items'. induction items as [|[k v] items IH]; simpl; intros items' H.
  - now injection H as <-.
  - destruct (f v) as [v'| |]; simpl in H; try discriminate.
    destruct (mapM _ items) as [rest| |]; simpl in H; try discriminate.
    injection H as <-. simpl. f_equal. now apply IH.
Qed.

Lemma shorten_mapping_dict_keys (items : list (string * value)) (m : nat) :
  exists new, _shorten_mapping (VDict items) m = Ok (VDict new) /\
    map fst new = firstn m (map fst items).
Proof.
  unfold _shorten_mapping. cbn [len mapping_items bind].
  destruct (Nat.leb_spec (List.length items) m) as [Hle|Hgt].
  - exists items. split; [reflexivity|].
    rewrite firstn_all2; [reflexivity | now rewrite length_map].
  - destruct (getitem_all items (firstn m (map fst items)) (firstn_incl_self _ _))
      as (new & Hnew & _ & _).
    exists new. rewrite Hnew. split; [reflexivity|].
    exact (getitem_keys _ _ _ Hnew).
Qed.

(** ** Heights *)

Lemma height_list_in (l : list value) (e : value) :
  In e l -> height e < height (VList l).
Proof.
  simpl. induction l as [|x l IH]; intros []; subst; [lia|].
  specialize (IH H). lia.
Qed.

Lemma height_dict_in (items : list (string * value)) (kv : string * value) :
  In kv items -> height (snd kv) < height (VDict items).
Proof.
  simpl. induction items as [|[k x] items IH]; intros []; subst; simpl; [lia|].
  specialize (IH H). lia.
Qed.

Lemma height_dict_bound (items : list (string * value)) (h : nat) :
  (forall kv, In kv items -> height (snd kv) < h) -> 0 < h ->
  height (VDict items) <= h.
Proof.
  simpl. induction items as [|[k x] items IH]; intros Hall Hh; [lia|].
  pose proof (Hall (k, x) (or_introl eq_refl)) as Hx. simpl in Hx.
  assert (Hrest : forall kv, In kv items -> height (snd kv) < h)
    by (intros kv Hkv; apply Hall; now right).
  specialize (IH Hrest Hh). lia.
Qed.

Lemma height_tuple_list (l : list value) : height (VTuple l) = height (VList l).
Proof. reflexivity. Qed.

Lemma height_mapping_dict (o : pyobject) (items : list (string * value)) :
  height (VMapping o items) = height (VDict items).
Proof. reflexivity. Qed.

Lemma height_dict_incl (new items : list (string * value)) :
  incl new items -> height (VDict new) <= height (VDict items).
Proof.
  intros Hsub. apply height_dict_bound; [|simpl; lia].
  intros kv Hkv. apply height_dict_in. now apply Hsub.
Qed.

(** ** The walks do not depend on the fuel, once there is enough *)

Lemma bind_fuel_free {A B : Type} (m : result A) (k : A -> result B) :
  m <> NoFuel -> (forall a, m = Ok a -> k a <> NoFuel) -> bind m k <> NoFuel.
Proof.
  destruct m as [a|e|]; simpl; intros Hm Hk; [now apply Hk | discriminate | congruence].
Qed.

Lemma mapM_fuel_free {A B : Type} (f : A -> result B) (l : list A) :
  Forall (fun x => f x <> NoFuel) l -> mapM f l <> NoFuel.
Proof.
  induction 1 as [|x l Hx _ IH]; simpl; [discriminate|].
  apply bind_fuel_free; [exact Hx|]. intros y _.
  apply bind_fuel_free; [exact IH|]. discriminate.
Qed.

Lemma shorten_sequence_fuel_free (self : ShortenerTransform) (v : value) (m : nat) :
  _shorten_sequence self v m <> NoFuel.
Proof.
  unfold _shorten_sequence. destruct (len v) as [n| |] eqn:Hlen; simpl;
    try discriminate.
  - destruct (n <=? m); discriminate.
  - destruct v; discriminate.
Qed.

Section Fuel.

Variable b : bool.
Variable self : ShortenerTransform.

Let trav := traverse_obj_fuel b self.
Let shor := _shorten_fuel b self.

Lemma shorten_walk_free (v : value) (f1 f2 : nat) :
  walk_free b v -> shor (S f1) v = shor (S f2) v /\ shor (S f1) v <> NoFuel.
Proof.
  intros Hv. subst shor. rewrite !_shorten_fuel_S.
  destruct v as [| z | s | l | l | items | o items | o]; simpl in Hv;
    try contradiction; try rewrite Hv; (split; [reflexivity|]).
  - discriminate.
  - unfold _shorten_basic. simpl. destruct (_ <=? _); discriminate.
  - apply shorten_sequence_fuel_free.
  - unfold _shorten_other. destruct (safe_repr self); simpl; [|discriminate].
    destruct (obj_str o); discriminate.
  - unfold _shorten_other. destruct (safe_repr self); simpl; [|discriminate].
    destruct (obj_str o); discriminate.
Qed.

Lemma entry_stable (n : nat) (v : value) (f1 f2 : nat) :
  trav_stable b self n -> height v <= n -> n + 1 <= f1 -> n + 1 <= f2 ->
  entry_with b self (trav f1) (shor f1) v = entry_with b self (trav f2) (shor f2) v /\
  entry_with b self (trav f1) (shor f1) v <> NoFuel.
Proof.
  intros IH Hh Hf1 Hf2.
  destruct f1 as [|f1]; [lia|]. destruct f2 as [|f2]; [lia|].
  assert (Hseq : forall m, len v <> Raise TypeError ->
            (v' <- _shorten_sequence self v m ;; trav (S f1) v')
            = (v' <- _shorten_sequence self v m ;; trav (S f2) v') /\
            (v' <- _shorten_sequence self v m ;; trav (S f1) v') <> NoFuel).
  { intros m Hlen. destruct (len v) as [k|e|] eqn:Hk.
    - destruct (shorten_sequence_cases self v m k Hk) as [[-> _]|[-> _]]; simpl.
      + apply IH; lia.
      + apply IH; simpl; lia.
    - destruct v; simpl in Hk; try discriminate; congruence.
    - destruct v; discriminate. }
  destruct v as [| z | s | l | l | items | o items | o]; cbn [entry_with].
  - now apply shorten_walk_free.
  - now apply shorten_walk_free.
  - now apply shorten_walk_free.
  - apply Hseq. discriminate.
  - apply Hseq. discriminate.
  - destruct (shorten_mapping_dict items (maxdict (_repr self)))
      as (new & -> & Hsub & _). simpl.
    apply IH; try lia. pose proof (height_dict_incl new items Hsub). lia.
  - destruct (Bool.bool_dec b false) as [Hb|Hb].
    + rewrite Hb. apply shorten_walk_free. exact Hb.
    + apply Bool.not_false_is_true in Hb. rewrite Hb.
      apply Hseq. discriminate.
  - now apply shorten_walk_free.
Qed.

Lemma stored_stable (v : value) (f1 f2 : nat) :
  stored_with b self (shor (S f1)) v = stored_with b self (shor (S f2)) v /\
  stored_with b self (shor (S f1)) v <> NoFuel.
Proof.
  destruct v as [| z | s | l | l | items | o items | o]; cbn [stored_with];
    try (now apply shorten_walk_free);
    try (split; [reflexivity | apply shorten_sequence_fuel_free]).
  - destruct (shorten_mapping_dict items (maxdict (_repr self))) as (new & -> & _).
    split; [reflexivity | discriminate].
  - destruct (Bool.bool_dec b false) as [Hb|Hb].
    + rewrite Hb. apply shorten_walk_free. exact Hb.
    + apply Bool.not_false_is_true in Hb. rewrite Hb.
      split; [reflexivity | apply shorten_sequence_fuel_free].
Qed.

Lemma trav_stable_all (n : nat) : trav_stable b self n.
Proof.
  induction n as [|n IH]; intros v f1 f2 Hh Hf1 Hf2;
    (destruct f1 as [|f1]; [lia|]); (destruct f2 as [|f2]; [lia|]);
    unfold trav; rewrite !traverse_obj_fuel_S.
  - destruct v; simpl in Hh; try lia; split; (reflexivity || discriminate).
  - destruct v as [| z | s | l | l | items | o items | o];
      try (split; (reflexivity || discriminate)).
    + assert (Hall : Forall (fun e =>
                entry_with b self (traverse_obj_fuel b self f1) (shor f1) e
                = entry_with b self (traverse_obj_fuel b self f2) (shor f2) e /\
                entry_with b self (traverse_obj_fuel b self f1) (shor f1) e <> NoFuel) l).
      { apply Forall_forall. intros e He.
        pose proof (height_list_in l e He).
        apply (entry_stable n); [exact IH | lia | lia | lia]. }
      split.
      * f_equal. apply mapM_ext. eapply Forall_impl; [|exact Hall]. now intros e [].
      * apply bind_fuel_free; [|discriminate].
        apply mapM_fuel_free. eapply Forall_impl; [|exact Hall]. now intros e [].
    + destruct l as [|v l]; [split; (reflexivity || discriminate)|].
      destruct f1 as [|f1]; [lia|]. destruct f2 as [|f2]; [lia|].
      destruct (stored_stable v f1 f2) as [Heq Hfree].
      unfold shor in Heq, Hfree. rewrite Heq. split; [reflexivity|].
      rewrite <- Heq. apply bind_fuel_free; [exact Hfree | discriminate].
    + assert (Hall : Forall (fun kv =>
                entry_with b self (traverse_obj_fuel b self f1) (shor f1) (snd kv)
                = entry_with b self (traverse_obj_fuel b self f2) (shor f2) (snd kv) /\
                entry_with b self (traverse_obj_fuel b self f1) (shor f1) (snd kv)
                <> NoFuel) items).
      { apply Forall_forall. intros kv Hkv.
        pose proof (height_dict_in items kv Hkv).
        apply (entry_stable n); [exact IH | lia | lia | lia]. }
      split.
      * f_equal. apply mapM_ext. eapply Forall_impl; [|exact Hall].
        intros kv [Heq _]. unfold shor in Heq. cbv beta. now rewrite Heq.
      * apply bind_fuel_free; [|discriminate].
        apply mapM_fuel_free. eapply Forall_impl; [|exact Hall].
        intros kv [_ Hfree]. cbv beta. apply bind_fuel_free; [exact Hfree | discriminate].
    + destruct items; [split; (reflexivity || discriminate)|].
      split; [reflexivity|]. destruct (Bool.bool_dec b false) as [Hb|Hb].
      * rewrite Hb. discriminate.
      * apply Bool.not_false_is_true in Hb. rewrite Hb. discriminate.
Qed.

End Fuel.

Lemma if_flag_true {A : Type} (c : bool) (x y : A) :
  c = true -> (if c then x else y) = x.
Proof. now intros ->. Qed.

Lemma if_flag_false {A : Type} (c : bool) (x y : A) :
  c = false -> (if c then x else y) = y.
Proof. now intros ->. Qed.

Section Total.

Variable b : bool.
Variable self : ShortenerTransform.

Lemma traverse_obj_fuel_enough (v : value) (fuel : nat) :
  height v + 1 <= fuel ->
  traverse_obj_fuel b self fuel v = traverse_obj b self v.
Proof.
  intros Hf. unfold traverse_obj.
  apply (trav_stable_all b self (height v)); lia.
Qed.

(** C2, C3 and C1 rest on this: the walk always comes to an end. *)
Lemma traverse_obj_terminates (v : value) : traverse_obj b self v <> NoFuel.
Proof.
  unfold traverse_obj. apply (trav_stable_all b self (height v) v _ (height v + 1)); lia.
Qed.

Lemma shorten_sequence_height (v v' : value) (m : nat) :
  _shorten_sequence self v m = Ok v' -> height v' <= height v.
Proof.
  unfold _shorten_sequence. destruct (len v) as [n| |]; simpl; try discriminate.
  destruct (n <=? m); intros [= <-]; simpl; lia.
Qed.

Lemma shorten_mapping_height (items : list (string * value)) (v' : value) (m : nat) :
  _shorten_mapping (VDict items) m = Ok v' -> height v' <= height (VDict items).
Proof.
  destruct (shorten_mapping_dict items m) as (new & -> & Hsub & _).
  intros [= <-]. now apply height_dict_incl.
Qed.

Lemma bind_traverse_enough (m : result value) (h fuel : nat) :
  (forall v', m = Ok v' -> height v' <= h) -> h + 1 <= fuel ->
  (v' <- m ;; traverse_obj_fuel b self fuel v') = (v' <- m ;; traverse_obj b self v').
Proof.
  intros Hh Hf. destruct m as [v'| |]; simpl; try reflexivity.
  apply traverse_obj_fuel_enough. specialize (Hh v' eq_refl). lia.
Qed.

(** [_shorten], one call unfolded. *)
Lemma _shorten_eq (v : value) :
  _shorten b self v =
  match v with
  | VDict _ => v' <- _shorten_mapping v (maxdict (_repr self)) ;; traverse_obj b self v'
  | VStr _ => _shorten_sequence self v (maxstring (_repr self))
  | VList _ =>
      v' <- _shorten_sequence self v (maxlist (_repr self)) ;; traverse_obj b self v'
  | VTuple _ =>
      v' <- _shorten_sequence self v (maxtuple (_repr self)) ;; traverse_obj b self v'
  | VMapping _ _ =>
      if b
      then v' <- _shorten_sequence self v (maxdict (_repr self)) ;; traverse_obj b self v'
      else _shorten_other self v
  | VInt _ => _shorten_basic self v (maxlong (_repr self))
  | VNone | VObj _ => _shorten_other self v
  end.
Proof.
  unfold _shorten. replace (height v + 2) with (S (height v + 1)) by lia.
  rewrite _shorten_fuel_S.
  destruct v as [| z | s | l | l | items | o items | o]; try reflexivity.
  - apply (bind_traverse_enough _ (height (VList l))); [|lia].
    intros v'. apply shorten_sequence_height.
  - apply (bind_traverse_enough _ (height (VTuple l))); [|lia].
    intros v'. apply shorten_sequence_height.
  - apply (bind_traverse_enough _ (height (VDict items))); [|lia].
    intros v'. apply shorten_mapping_height.
  - destruct (Bool.bool_dec b false) as [Hb|Hb].
    + now rewrite !(if_flag_false b _ _ Hb).
    + apply Bool.not_false_is_true in Hb. rewrite !(if_flag_true b _ _ Hb).
      apply (bind_traverse_enough _ (height (VMapping o items))); [|lia].
      intros v'. apply shorten_sequence_height.
Qed.

Lemma entry_is_shorten (v : value) (fuel : nat) :
  height v + 1 <= fuel ->
  entry_with b self (traverse_obj_fuel b self fuel) (_shorten_fuel b self fuel) v
  = _shorten b self v.
Proof.
  intros Hf. rewrite _shorten_eq.
  assert (Hleaf : walk_free b v ->
            _shorten_fuel b self fuel v = _shorten_fuel b self (S (height v + 1)) v).
  { intros Hv. destruct fuel as [|fuel]; [lia|].
    now apply shorten_walk_free. }
  replace (S (height v + 1)) with (height v + 2) in Hleaf by lia.
  fold (_shorten b self v) in Hleaf. rewrite _shorten_eq in Hleaf.
  destruct v as [| z | s | l | l | items | o items | o]; cbn [entry_with];
    try (apply Hleaf; exact I).
  - apply (bind_traverse_enough _ (height (VList l))); [|lia].
    intros v'. apply shorten_sequence_height.
  - apply (bind_traverse_enough _ (height (VTuple l))); [|lia].
    intros v'. apply shorten_sequence_height.
  - apply (bind_traverse_enough _ (height (VDict items))); [|lia].
    intros v'. apply shorten_mapping_height.
  - destruct (Bool.bool_dec b false) as [Hb|Hb].
    + rewrite !(if_flag_false b _ _ Hb). rewrite (if_flag_false b _ _ Hb) in Hleaf.
      apply Hleaf. exact Hb.
    + apply Bool.not_false_is_true in Hb. rewrite !(if_flag_true b _ _ Hb).
      apply (bind_traverse_enough _ (height (VMapping o items))); [|lia].
      intros v'. apply shorten_sequence_height.
Qed.

(** [traverse_obj], one call unfolded: in a list or a dictionary every entry
    is replaced by what [_shorten] makes of it. *)
Lemma traverse_obj_eq (d : value) :
  traverse_obj b self d =
  match d with
  | VDict items =>
      items' <- mapM (fun kv => v' <- _shorten b self (snd kv) ;; Ok (fst kv, v')) items ;;
      Ok (VDict items')
  | VList l => l' <- mapM (_shorten b self) l ;; Ok (VList l')
  | VTuple [] => Ok d
  | VTuple (v :: _) =>
      _ <- stored_with b self (_shorten b self) v ;; Raise TypeError
  | VMapping _ [] => Ok d
  | VMapping _ (_ :: _) => if b then Raise KeyError else Ok d
  | VNone | VInt _ | VStr _ | VObj _ => Ok d
  end.
Proof.
  unfold traverse_obj. replace (height d + 1) with (S (height d)) by lia.
  rewrite traverse_obj_fuel_S.
  destruct d as [| z | s | l | l | items | o items | o]; try reflexivity.
  - f_equal. apply mapM_ext, Forall_forall. intros e He.
    apply entry_is_shorten. pose proof (height_list_in l e He). lia.
  - destruct l as [|v l]; [reflexivity|]. f_equal.
    assert (Hv : height v + 1 <= height (VTuple (v :: l))) by (simpl; lia).
    pose proof (entry_is_shorten v _ Hv) as He.
    destruct v as [| z | s | l0 | l0 | items | o items | o]; cbn [stored_with entry_with] in *;
      try exact He; try reflexivity.
    destruct (Bool.bool_dec b false) as [Hb|Hb].
    + rewrite !(if_flag_false b _ _ Hb) in *. exact He.
    + apply Bool.not_false_is_true in Hb. now rewrite !(if_flag_true b _ _ Hb).
  - f_equal. apply mapM_ext, Forall_forall. intros kv Hkv. cbv beta.
    rewrite entry_is_shorten; [reflexivity|].
    pose proof (height_dict_in items kv Hkv). lia.
Qed.

Lemma _shorten_terminates (v : value) : _shorten b self v <> NoFuel.
Proof.
  rewrite _shorten_eq.
  destruct v as [| z | s | l | l | items | o items | o];
    try apply shorten_sequence_fuel_free;
    try (apply bind_fuel_free;
         [apply shorten_sequence_fuel_free | intros; apply traverse_obj_terminates]).
  - discriminate.
  - unfold _shorten_basic. simpl. destruct (_ <=? _); discriminate.
  - destruct (shorten_mapping_dict items (maxdict (_repr self))) as (new & -> & _).
    cbn [bind]. apply traverse_obj_terminates.
  - destruct (Bool.bool_dec b false) as [Hb|Hb].
    + rewrite (if_flag_false b _ _ Hb).
      unfold _shorten_other. destruct (safe_repr self); simpl; [|discriminate].
      destruct (obj_str o); discriminate.
    + apply Bool.not_false_is_true in Hb. rewrite (if_flag_true b _ _ Hb).
      apply bind_fuel_free;
        [apply shorten_sequence_fuel_free | intros; apply traverse_obj_terminates].
  - unfold _shorten_other. destruct (safe_repr self); simpl; [|discriminate].
    destruct (obj_str o); discriminate.
Qed.

End Total.

Lemma _shorten_fuel_enough (b : bool) (self : ShortenerTransform) (v : value)
    (fuel : nat) :
  height v + 2 <= fuel -> _shorten_fuel b self fuel v = _shorten b self v.
Proof.
  intros Hf. destruct fuel as [|fuel]; [lia|].
  rewrite _shorten_fuel_S, _shorten_eq.
  destruct v as [| z | s | l | l | items | o items | o]; try reflexivity.
  - apply (bind_traverse_enough b self _ (height (VList l))); [|lia].
    intros v'. apply shorten_sequence_height.
  - apply (bind_traverse_enough b self _ (height (VTuple l))); [|lia].
    intros v'. apply shorten_sequence_height.
  - apply (bind_traverse_enough b self _ (height (VDict items))); [|lia].
    intros v'. apply shorten_mapping_height.
  - destruct b; [|reflexivity].
    apply (bind_traverse_enough true self _ (height (VMapping o items))); [|lia].
    intros v'. apply shorten_sequence_height.
Qed.

(** ** Shapes of inputs and outputs *)










(** [mapM] and its results. *)
Lemma mapM_Forall2 {A B : Type} (f : A -> result B) (l : list A) (l' : list B) :
  mapM f l = Ok l' -> Forall2 (fun x y => f x = Ok y) l l'.
Proof.
  revert l'. induction l as [|x l IH]; simpl; intros l' H.
  - injection H as <-. constructor.
  - destruct (f x) as [y| |] eqn:Hx; simpl in H; try discriminate.
    destruct (mapM f l) as [ys| |]; simpl in H; try discriminate.
    injection H as <-. constructor; [exact Hx | now apply IH].
Qed.




Lemma Forall2_length_eq {A B : Type} (R : A -> B -> Prop) (l : list A) (l' : list B) :
  Forall2 R l l' -> List.length l' = List.length l.
Proof. induction 1; simpl; congruence. Qed.


(** ** What a pass returns *)
















(** ** The size guarantee *)









(** ** No exception on plain values *)




(** ** Idempotence *)

Lemma escape_char_length (quote c : ascii) : 1 <= length (escape_char quote c).
Proof.
  unfold escape_char. cbv zeta.
  repeat match goal with
         | |- context [if ?c then _ else _] => destruct c
         end; simpl; lia.
Qed.

Lemma escape_all_length (quote : ascii) (s : string) :
  length s <= length (escape_all quote s).
Proof.
  induction s as [|c s IH]; [simpl; lia|].
  cbn [escape_all]. rewrite length_append.
  pose proof (escape_char_length quote c). simpl. lia.
Qed.

Lemma repr_of_str_length (s : string) : length s + 2 <= length (repr_of_str s).
Proof.
  unfold repr_of_str. cbv zeta. cbn [length]. rewrite length_append. cbn [length].
  match goal with |- context [escape_all ?q s] => pose proof (escape_all_length q s) end.
  lia.
Qed.








(** ** Mapping objects *)

(** C8, on the code: a mapping object that is not a [dict] is classified
    with the dictionary limit, but neither [_shorten] nor [traverse_obj]
    treats it as a mapping.  With five keys under the default limit of four
    it comes back as one text, where the dictionary with the same entries
    keeps its first four keys; with one key it makes the walk raise
    [KeyError] when [Mapping] is among [sequence_types], and is summarised
    by the other strategy when it is not. *)
Theorem mapping_object_not_shortened_as_mapping :
  let self := mkShortener true None Repr_default in
  let items := [("a", VInt 1); ("b", VInt 2); ("c", VInt 3); ("d", VInt 4);
                ("e", VInt 5)] in
  let o := mkObj "UserDict" "7f3a" (Some "{'a': 1, 'b': 2, 'c': 3, 'd': 4, 'e': 5}")
                 (Some "{'a': 1, 'b': 2, 'c': 3, 'd': 4, 'e': 5}") in
  let o1 := mkObj "UserDict" "7f3b" (Some "{'a': 1}") (Some "{'a': 1}") in
  _get_max_size self (VMapping o items) = Ok (maxdict Repr_default) /\
  _shorten true self (VDict items) = Ok (VDict (firstn 4 items)) /\
  _shorten true self (VMapping o items) = Ok (VStr "{'a': 1, 'b':...d': 4, 'e': 5}") /\
  (exists s, _shorten false self (VMapping o items) = Ok (VStr s) /\ length s = 30) /\
  _shorten true self (VMapping o1 [("a", VInt 1)]) = Raise KeyError /\
  (exists s, _shorten false self (VMapping o1 [("a", VInt 1)]) = Ok (VStr s)).
Proof.
  repeat split; try reflexivity; eexists; try split; reflexivity.
Qed.

(** * Further properties of the transform *)

(** ** Exact lengths of cuts *)

Lemma substring_length (s : string) (n m : nat) :
  length (substring n m s) = Nat.min m (length s - n).
Proof.
  revert n m. induction s as [|c s IH]; intros n m.
  - destruct n, m; reflexivity.
  - destruct n as [|n]; simpl.
    + destruct m as [|m]; simpl; [reflexivity|]. rewrite IH. lia.
    + apply IH.
Qed.

Lemma str_prefix_length (n : nat) (s : string) :
  n <= length s -> length (str_prefix n s) = n.
Proof. intros Hn. unfold str_prefix. rewrite substring_length. lia. Qed.

Lemma str_suffix_length (j : nat) (s : string) :
  j <= length s -> length (str_suffix j s) = j.
Proof.
  intros Hj. unfold str_suffix, slice_from. cbv zeta.
  destruct (Z.ltb_spec (Z.of_nat (length s) - Z.of_nat j) 0) as [Hneg|Hpos]; [lia|].
  rewrite substring_length. lia.
Qed.

Lemma cut_ij_eq (m : nat) : cut_i m + 3 + cut_j m = Nat.max 3 m.
Proof.
  unfold cut_j, cut_i.
  assert ((m - 3) / 2 <= m - 3) by (apply Nat.Div0.div_le_upper_bound; lia).
  lia.
Qed.

Lemma cut_length (m : nat) (s : string) :
  m < length s -> length (cut m s) = Nat.max 3 m.
Proof.
  intros Hlong. unfold cut. rewrite !length_append.
  change (length fillvalue) with 3.
  pose proof (cut_ij_eq m) as Hij.
  rewrite str_prefix_length, str_suffix_length; lia.
Qed.

(** ** Classification *)

(** X1.  [_get_max_size] never raises and answers by the first matching row
    of the type table: text gets [maxstring], integers [maxlong], a
    dictionary and any other mapping object alike [maxdict] (the row is
    named "mapping", the attribute read is [maxdict]), lists [maxlist],
    tuples [maxtuple], and [None] and opaque objects [maxother]. *)
Theorem get_max_size_by_category (self : ShortenerTransform) :
  (forall v, exists n, _get_max_size self v = Ok n) /\
  (forall s, _get_max_size self (VStr s) = Ok (maxstring (_repr self))) /\
  (forall z, _get_max_size self (VInt z) = Ok (maxlong (_repr self))) /\
  (forall items, _get_max_size self (VDict items) = Ok (maxdict (_repr self))) /\
  (forall o items, _get_max_size self (VMapping o items) = Ok (maxdict (_repr self))) /\
  (forall l, _get_max_size self (VList l) = Ok (maxlist (_repr self))) /\
  (forall l, _get_max_size self (VTuple l) = Ok (maxtuple (_repr self))) /\
  _get_max_size self VNone = Ok (maxother (_repr self)) /\
  (forall o, _get_max_size self (VObj o) = Ok (maxother (_repr self))).
Proof.
  split; [intros v; destruct v; eexists; reflexivity|].
  repeat split.
Qed.

(** ** The scalar strategy *)

Lemma Repr_repr_int (r : Repr) (z : Z) : Repr_repr r (VInt z) = repr_int r z.
Proof. reflexivity. Qed.

(** X2.  On a convertible integer, with the limit [_shorten] passes
    ([maxlong]), the scalar strategy returns the integer itself when its
    decimal form has at most [maxlong] characters; otherwise, no attribute
    of [Repr] being overridden, it returns a text made of the leading
    digits, the fill ["..."] and the trailing digits, and that text has
    exactly [max 3 maxlong] characters. *)
Theorem shorten_basic_int (self : ShortenerTransform) (z : Z) :
  convertible z = true ->
  (length (str_of_int z) <= maxlong (_repr self) ->
     _shorten_basic self (VInt z) (maxlong (_repr self)) = Ok (VInt z)) /\
  (maxlong (_repr self) < length (str_of_int z) ->
   unshadowed (_repr self) = true ->
     _shorten_basic self (VInt z) (maxlong (_repr self))
     = Ok (VStr (str_prefix (cut_i (maxlong (_repr self))) (str_of_int z)
                 ++ "..."
                 ++ str_suffix (cut_j (maxlong (_repr self))) (str_of_int z))) /\
     length (str_prefix (cut_i (maxlong (_repr self))) (str_of_int z)
             ++ "..."
             ++ str_suffix (cut_j (maxlong (_repr self))) (str_of_int z))
     = Nat.max 3 (maxlong (_repr self))).
Proof.
  intros _.
  unfold _shorten_basic. cbn [py_str py_repr bind]. rewrite Repr_repr_int.
  unfold repr_int. cbv zeta. split.
  - intros Hlen. apply Nat.leb_le in Hlen. now rewrite Hlen.
  - intros Hlen _.
    assert (Hgt : (length (str_of_int z) <=? maxlong (_repr self)) = false)
      by (apply Nat.leb_gt; exact Hlen).
    assert (Hlt : (maxlong (_repr self) <? length (str_of_int z)) = true)
      by (apply Nat.ltb_lt; exact Hlen).
    rewrite Hgt, Hlt. split; [reflexivity|].
    exact (cut_length (maxlong (_repr self)) (str_of_int z) Hlen).
Qed.

Lemma shorten_basic_int_witness :
  _shorten_basic (mkShortener true None Repr_default)
    (VInt 12345678901234567890123456789012345678901234567890) 40
  = Ok (VStr "123456789012345678...2345678901234567890").
Proof.
  refine (proj1 (proj2 (shorten_basic_int (mkShortener true None Repr_default)
            12345678901234567890123456789012345678901234567890 _) _ eq_refl)).
  - vm_compute. reflexivity.
  - vm_compute. lia.
Defined.

(** ** The other strategy *)


(** ** Dictionaries *)

(** X4.  A dictionary that [_shorten] returns is a dictionary again, and
    its keys are the first [maxdict] keys of the input, in the input's
    order (all of them when there are no more than [maxdict]). *)
Theorem shorten_dict_keeps_first_keys (b : bool) (self : ShortenerTransform)
    (items : list (string * value)) (out : value) :
  _shorten b self (VDict items) = Ok out ->
  exists items', out = VDict items' /\
    map fst items' = firstn (maxdict (_repr self)) (map fst items).
Proof.
  rewrite _shorten_eq.
  destruct (shorten_mapping_dict_keys items (maxdict (_repr self)))
    as (new & -> & Hkeys).
  cbn [bind]. rewrite traverse_obj_eq.
  destruct (mapM _ new) as [items'| |] eqn:Hwalk; cbn [bind]; try discriminate.
  intros [= <-]. exists items'. split; [reflexivity|].
  rewrite <- Hkeys. exact (mapM_values_keys _ _ _ Hwalk).
Qed.

Lemma shorten_dict_keeps_first_keys_witness :
  exists items',
    VDict [("a", VInt 1); ("b", VList []); ("c", VNone); ("d", VStr "x")]
    = VDict items' /\
    map fst items' = ["a"; "b"; "c"; "d"].
Proof.
  exact (shorten_dict_keeps_first_keys true (mkShortener true None Repr_default)
           [("a", VInt 1); ("b", VList []); ("c", VNone); ("d", VStr "x");
            ("e", VTuple [VInt 1])]
           (VDict [("a", VInt 1); ("b", VList []); ("c", VNone); ("d", VStr "x")])
           eq_refl).
Defined.

Lemma shorten_mapping_nodup (items : list (string * value)) (m : nat) :
  NoDup (map fst items) ->
  _shorten_mapping (VDict items) m = Ok (VDict (firstn m items)).
Proof.
  intros Hnd. unfold _shorten_mapping. cbn [len mapping_items bind].
  destruct (Nat.leb_spec (List.length items) m) as [Hle|Hgt].
  - now rewrite firstn_all2.
  - pose proof (islice_getitem m [] items Hnd) as Hslice.
    cbn [app] in Hslice. now rewrite Hslice.
Qed.

(** X5.  The dictionary is cut before it is walked: on a dictionary with
    distinct keys [_shorten] gives the result it gives on the first
    [maxdict] entries alone, so an entry beyond the limit is never looked
    at and cannot make the pass raise. *)
Theorem shorten_dict_ignores_dropped_entries (b : bool) (self : ShortenerTransform)
    (items : list (string * value)) :
  NoDup (map fst items) ->
  _shorten b self (VDict items)
  = _shorten b self (VDict (firstn (maxdict (_repr self)) items)).
Proof.
  intros Hnd. rewrite !_shorten_eq.
  rewrite (shorten_mapping_nodup items _ Hnd).
  assert (Hnd' : NoDup (map fst (firstn (maxdict (_repr self)) items))).
  { rewrite <- (firstn_skipn (maxdict (_repr self)) items) in Hnd.
    rewrite map_app in Hnd. now apply NoDup_app_remove_r in Hnd. }
  rewrite (shorten_mapping_nodup _ _ Hnd').
  now rewrite firstn_firstn, Nat.min_id.
Qed.

Lemma shorten_dict_ignores_dropped_entries_witness :
  _shorten true (mkShortener true None Repr_default)
    (VDict [("a", VInt 1); ("b", VInt 2); ("c", VInt 3); ("d", VInt 4);
            ("e", VTuple [VInt 5])])
  = Ok (VDict [("a", VInt 1); ("b", VInt 2); ("c", VInt 3); ("d", VInt 4)]).
Proof.
  rewrite (shorten_dict_ignores_dropped_entries true
             (mkShortener true None Repr_default)
             [("a", VInt 1); ("b", VInt 2); ("c", VInt 3); ("d", VInt 4);
              ("e", VTuple [VInt 5])]).
  - reflexivity.
  - repeat constructor; simpl; intuition discriminate.
Defined.

(** X6.  The mapping strategy is idempotent: what it returns on a mapping
    it returns unchanged when applied again with the same limit. *)
Theorem shorten_mapping_idempotent (obj out : value)
    (items : list (string * value)) (max_keys : nat) :
  mapping_items obj = Ok items ->
  _shorten_mapping obj max_keys = Ok out ->
  _shorten_mapping out max_keys = Ok out.
Proof.
  intros Hitems.
  assert (Hlen_obj : len obj = Ok (List.length items))
    by (destruct obj; simpl in *; congruence).
  unfold _shorten_mapping at 1. rewrite Hlen_obj, Hitems. cbn [bind].
  destruct (Nat.leb_spec (List.length items) max_keys) as [Hle|Hgt].
  - intros [= <-]. unfold _shorten_mapping. rewrite Hlen_obj. cbn [bind].
    apply Nat.leb_le in Hle. now rewrite Hle.
  - destruct (getitem_all items (firstn max_keys (map fst items))
                (firstn_incl_self _ _)) as (new & Hnew & Hlen & _).
    rewrite Hnew. cbn [bind]. intros [= <-].
    unfold _shorten_mapping. cbn [len bind].
    assert (Hshort : (List.length new <=? max_keys) = true).
    { apply Nat.leb_le. rewrite Hlen. apply firstn_le_length. }
    now rewrite Hshort.
Qed.

Lemma shorten_mapping_idempotent_witness :
  _shorten_mapping (VDict [("a", VInt 1); ("b", VInt 2)]) 2
  = Ok (VDict [("a", VInt 1); ("b", VInt 2)]).
Proof.
  exact (shorten_mapping_idempotent
           (VDict [("a", VInt 1); ("b", VInt 2); ("c", VInt 3)])
           (VDict [("a", VInt 1); ("b", VInt 2)])
           [("a", VInt 1); ("b", VInt 2); ("c", VInt 3)] 2 eq_refl eq_refl).
Defined.

(** ** Lists and tuples *)





(** ** The walk *)

(** X9.  [traverse_obj] caps nothing in the container it is given: a
    dictionary comes back with the same keys in the same order and a list
    with the same length, each entry replaced by what [_shorten] returns on
    it; text, integers, [None] and opaque objects come back untouched. *)
Theorem traverse_obj_keeps_entries (b : bool) (self : ShortenerTransform) :
  (forall items out, traverse_obj b self (VDict items) = Ok out ->
     exists items', out = VDict items' /\ map fst items' = map fst items /\
       Forall2 (fun kv kv' => _shorten b self (snd kv) = Ok (snd kv')) items items') /\
  (forall l out, traverse_obj b self (VList l) = Ok out ->
     exists l', out = VList l' /\ List.length l' = List.length l /\
       Forall2 (fun e e' => _shorten b self e = Ok e') l l') /\
  (forall s, traverse_obj b self (VStr s) = Ok (VStr s)) /\
  (forall z, traverse_obj b self (VInt z) = Ok (VInt z)) /\
  traverse_obj b self VNone = Ok VNone /\
  (forall o, traverse_obj b self (VObj o) = Ok (VObj o)).
Proof.
  repeat split; try (intros; now rewrite traverse_obj_eq).
  - intros items out. rewrite traverse_obj_eq.
    destruct (mapM _ items) as [items'| |] eqn:Hwalk; cbn [bind]; try discriminate.
    intros [= <-]. exists items'. split; [reflexivity|].
    split; [exact (mapM_values_keys _ _ _ Hwalk)|].
    apply mapM_Forall2 in Hwalk.
    eapply Forall2_impl; [|exact Hwalk].
    intros [k v] [k' v'] H. cbn [fst snd] in *.
    destruct (_shorten b self v) as [w| |]; cbn [bind] in H; try discriminate.
    now injection H as _ ->.
  - intros l out. rewrite traverse_obj_eq.
    destruct (mapM _ l) as [l'| |] eqn:Hwalk; cbn [bind]; try discriminate.
    intros [= <-]. exists l'. split; [reflexivity|].
    apply mapM_Forall2 in Hwalk.
    split; [exact (Forall2_length_eq _ _ _ Hwalk) | exact Hwalk].
Qed.

Lemma traverse_obj_keeps_entries_witness :
  exists l', VList [VInt 1; VStr "x"; VNone; VInt 4; VInt 5; VInt 6; VInt 7; VInt 8]
             = VList l' /\ List.length l' = 8.
Proof.
  destruct (proj1 (proj2 (traverse_obj_keeps_entries true
                            (mkShortener true None Repr_default)))
              [VInt 1; VStr "x"; VNone; VInt 4; VInt 5; VInt 6; VInt 7; VInt 8]
              (VList [VInt 1; VStr "x"; VNone; VInt 4; VInt 5; VInt 6; VInt 7; VInt 8])
              eq_refl) as (l' & Heq & Hlen & _).
  exists l'. split; [exact Heq | exact Hlen].
Defined.

(** ** Exceptions *)









(** ** Overrides *)




(** ** Recursion depth *)

(** X12.  The walk needs no more nested calls than the nesting height of
    the value plus two: run with that many or more, [_shorten] and
    [traverse_obj] give one and the same result and never run short. *)
Theorem shorten_depth_bounded (b : bool) (self : ShortenerTransform) (v : value)
    (fuel : nat) :
  height v + 2 <= fuel ->
  _shorten_fuel b self fuel v = _shorten b self v /\
  traverse_obj_fuel b self fuel v = traverse_obj b self v /\
  _shorten b self v <> NoFuel /\
  traverse_obj b self v <> NoFuel.
Proof.
  intros Hf. split; [now apply _shorten_fuel_enough|].
  split; [apply traverse_obj_fuel_enough; lia|].
  split; [apply _shorten_terminates | apply traverse_obj_terminates].
Qed.

Lemma shorten_depth_bounded_witness :
  _shorten_fuel true (mkShortener true None Repr_default) 1000
    (VList [VDict [("k", VList [VInt 1])]])
  = _shorten true (mkShortener true None Repr_default)
      (VList [VDict [("k", VList [VInt 1])]]).
Proof.
  apply (shorten_depth_bounded true (mkShortener true None Repr_default)
           (VList [VDict [("k", VList [VInt 1])]]) 1000).
  vm_compute. lia.
Defined.

(** ** Attributes that are no sizes *)












